(** * Thread-safe random numbers for RDataFrame (tutorial df041_ThreadSafeRNG)

    A shallow embedding of the random-number helpers of the tutorial
    [tutorials/analysis/dataframe/df041_ThreadSafeRNG.C] and of the part of
    the C++ standard library they are written against:

    - [std::mt19937], as fixed bit for bit by ISO C++ [rand.eng.mers] and
      [rand.predef] (32-bit Mersenne twister, default seed 5489);
    - [std::normal_distribution<double>], whose algorithm the standard leaves
      to the implementation; the model follows libstdc++ (Marsaglia's polar
      method, which keeps the second value of each pair for the next call),
      on IEEE binary64 numbers. The logarithm of the C library is a
      parameter of the development.

    Static and [thread_local] objects become explicit state that each
    function receives and returns. The sampler draws pairs until one is
    accepted; the loop is run for at most [fuel] rounds, and [None] stands
    for a loop that has not finished within them. *)

From Stdlib Require Import ZArith Lia Floats Uint63.
From stdpp Require Import base option list.

Local Open Scope Z_scope.

(** ** std::mt19937 *)

Module MT19937.

(** Template arguments of [std::mt19937]. *)
Definition w : Z := 32.
Definition n : nat := 624.
Definition m : nat := 397.
Definition r : Z := 31.
Definition a : Z := 0x9908b0df.
Definition u : Z := 11.
Definition d : Z := 0xffffffff.
Definition s : Z := 7.
Definition b : Z := 0x9d2c5680.
Definition t : Z := 15.
Definition c : Z := 0xefc60000.
Definition l : Z := 18.
Definition f : Z := 1812433253.
Definition default_seed : Z := 5489.

Definition word_max : Z := 2 ^ w.
Definition upper_mask : Z := Z.shiftl (Z.ones (w - r)) r.
Definition lower_mask : Z := Z.ones r.

(** The engine: the [n] words of the state and the position of the next
    word to hand out ([_M_x] and [_M_p]). *)
Record mt19937 : Type := Engine { _M_x : list Z; _M_p : nat }.

(** [x !!! i] on the state, reading 0 outside it (never reached: every
    index below is reduced modulo [n]). *)
Definition word (x : list Z) (i : nat) : Z := default 0 (x !! i).

(** Filling of the state from a seed:
    [x[i] = (f * (x[i-1] xor (x[i-1] >> (w-2))) + i mod n) mod 2^w]. *)
Fixpoint seed_fill (count : nat) (i : Z) (prev : Z) : list Z :=
  match count with
  | O => []
  | S count' =>
      let x := (f * Z.lxor prev (Z.shiftr prev (w - 2)) + i mod Z.of_nat n)
                 mod word_max in
      x :: seed_fill count' (i + 1) x
  end.

(** [g.seed(value)]: every word of the state and the position are
    overwritten, nothing of [g] is kept; the seed enters as
    [value mod 2^w]. *)
Definition seed (g : mt19937) (value : Z) : mt19937 :=
  let x0 := value mod word_max in
  Engine (x0 :: seed_fill (n - 1) 1 x0) n.

(** The constructor from a value, [mt19937(value) { seed(value); }], and
    the default constructor, [mt19937() : mt19937(default_seed)]. *)
Definition make (value : Z) : mt19937 := seed (Engine [] O) value.
Definition make_default : mt19937 := make default_seed.

(** [result_type] is [uint_fast32_t], 64 bits wide on LP64 Linux; an
    [unsigned long long] argument converts to it modulo 2^64. (With a
    32-bit [uint_fast32_t] the conversion is modulo 2^32; [seed] reduces
    modulo 2^32 in either case.) *)
Definition result_type_bits : Z := 64.
Definition to_result_type (v : Z) : Z := v mod 2 ^ result_type_bits.

(** One step of the state transition, done in place at index [k]. *)
Definition twist_at (x : list Z) (k : nat) : list Z :=
  let y := Z.lor (Z.land (word x k) upper_mask)
                 (Z.land (word x ((k + 1) mod n)) lower_mask) in
  let v := Z.lxor (Z.lxor (word x ((k + m) mod n)) (Z.shiftr y 1))
                  (if Z.testbit y 0 then a else 0) in
  <[k := v]> x.

(** [_M_gen_rand]: regenerate all [n] words, in increasing index order. *)
Definition gen_rand (x : list Z) : list Z :=
  foldl twist_at x (seq 0 n).

(** The tempering of one state word. *)
Definition temper (z : Z) : Z :=
  let z := Z.lxor z (Z.land (Z.shiftr z u) d) in
  let z := Z.lxor z (Z.land (Z.shiftl z s) b) in
  let z := Z.lxor z (Z.land (Z.shiftl z t) c) in
  Z.lxor z (Z.shiftr z l).

(** [operator()]: the next 32-bit value and the advanced engine. *)
Definition next (g : mt19937) : Z * mt19937 :=
  let '(x, p) := if decide (n ≤ _M_p g)%nat
                 then (gen_rand (_M_x g), O)
                 else (_M_x g, _M_p g) in
  (temper (word x p), Engine x (S p)).

Definition min : Z := 0.
Definition max : Z := word_max - 1.

(** [count] successive calls; the last value drawn. *)
Fixpoint discard_then_next (count : nat) (g : mt19937) : Z :=
  match count with
  | O => fst (next g)
  | S count' => discard_then_next count' (snd (next g))
  end.

End MT19937.

(** ** From engine words to [double]s *)

Definition double : Type := float.

(** Conversion of an unsigned integer below 2^63 to [double] (exact below
    2^53). *)
Definition to_double (z : Z) : double := PrimFloat.of_uint63 (Uint63.of_Z z).

Module Canonical.
Import MT19937.

(** [urng.max() - urng.min() + 1] = 2^32. *)
Definition range : double := to_double (MT19937.max - MT19937.min + 1).

(** Number of engine calls for 53 bits from a 32-bit engine:
    [max(1, (53 + 32 - 1) / 32)] = 2. *)
Definition calls : nat := Nat.max 1 ((53 + 32 - 1) / 32).

(** [std::nextafter(1.0, 0.0)]. *)
Definition below_one : double := 0x1.fffffffffffffp-1%float.

(** The accumulation loop [for (k = m; k != 0; --k)]. *)
Fixpoint accumulate (k : nat) (sum tmp : double) (g : mt19937)
  : double * double * mt19937 :=
  match k with
  | O => (sum, tmp, g)
  | S k' =>
      let '(v, g) := next g in
      let sum := (sum + to_double (v - MT19937.min) * tmp)%float in
      let tmp := (tmp * range)%float in
      accumulate k' sum tmp g
  end.

(** [std::generate_canonical<double, 53>(urng)]: a value in [0, 1). *)
Definition generate_canonical (g : mt19937) : double * mt19937 :=
  let '(sum, tmp, g) := accumulate calls 0%float 1%float g in
  let ret := (sum / tmp)%float in
  (if (1 <=? ret)%float then below_one else ret, g).

End Canonical.

(** ** std::normal_distribution<double> *)

Module Normal.
Import MT19937.

(** The parameters and the value kept back by the previous call. *)
Record normal_distribution : Type := Dist {
  _M_mean : double;
  _M_stddev : double;
  _M_saved : double;
  _M_saved_available : bool
}.

(** [normal_distribution(mean, stddev)]. *)
Definition make (mean stddev : double) : normal_distribution :=
  Dist mean stddev 0%float false.

(** [reset()]: forget the kept-back value. *)
Definition reset (dist : normal_distribution) : normal_distribution :=
  Dist (_M_mean dist) (_M_stddev dist) (_M_saved dist) false.

(** The rejection loop
    [do { x = 2*u() - 1; y = 2*u() - 1; r2 = x*x + y*y; }
     while (r2 > 1.0 || r2 == 0.0);]
    run for at most [fuel] rounds. *)
Fixpoint polar (fuel : nat) (g : mt19937)
  : option (double * double * double * mt19937) :=
  match fuel with
  | O => None
  | S fuel' =>
      let '(u1, g) := Canonical.generate_canonical g in
      let x := (2 * u1 - 1)%float in
      let '(u2, g) := Canonical.generate_canonical g in
      let y := (2 * u2 - 1)%float in
      let r2 := (x * x + y * y)%float in
      if ((1 <? r2) || (r2 =? 0))%float
      then polar fuel' g
      else Some (x, y, r2, g)
  end.

Section Call.
(** [std::log] of the C library. *)
Variable log : double → double.

(** [operator()(urng)]: the sample, the distribution and the engine
    after the call; [None] when the loop did not finish within
    [fuel] rounds. *)
Definition call (fuel : nat) (dist : normal_distribution) (g : mt19937)
  : option (double * normal_distribution * mt19937) :=
  if _M_saved_available dist then
    let ret := _M_saved dist in
    Some ((ret * _M_stddev dist + _M_mean dist)%float,
          Dist (_M_mean dist) (_M_stddev dist) (_M_saved dist) false,
          g)
  else
    '(x, y, r2, g) ← polar fuel g;
    let mult := PrimFloat.sqrt (-2 * log r2 / r2)%float in
    let ret := (y * mult)%float in
    Some ((ret * _M_stddev dist + _M_mean dist)%float,
          Dist (_M_mean dist) (_M_stddev dist) (x * mult)%float true,
          g).
End Call.

End Normal.

(** ** The tutorial's functions *)

(** The objects with static storage duration:
    [std::random_device globalRandomDevice{};
     std::mt19937 globalGenerator(globalRandomDevice());
     std::normal_distribution<double> globalGaus(0., 1.);]
    A [std::random_device] is not determined by the program: each use
    [rd()] is modelled by the [unsigned int] it delivers, an input. *)
Record globals : Type := Globals {
  globalGenerator : MT19937.mt19937;
  globalGaus : Normal.normal_distribution
}.

Definition globals_init (globalRandomDevice : Z) : globals :=
  Globals (MT19937.make globalRandomDevice) (Normal.make 0%float 1%float).

(** The [thread_local] objects of one function in one thread: [None] until
    the thread first passes their declaration. *)
Record thread_locals : Type := ThreadLocals {
  generator : option MT19937.mt19937;
  gaus : option Normal.normal_distribution
}.

Definition thread_start : thread_locals := ThreadLocals None None.

Section Shared.
Variable log : double → double.

(** [double GetGlobalNormallyDistributedNumber()
     { return globalGaus(globalGenerator); }] *)
Definition GetGlobalNormallyDistributedNumber (fuel : nat) (gl : globals)
  : option (double * globals) :=
  '(v, gaus, generator) ←
    Normal.call log fuel (globalGaus gl) (globalGenerator gl);
  Some (v, Globals generator gaus).

(** [double GetNormallyDistributedNumber()]: the thread's own engine,
    seeded from [rd()] when the thread first calls, and the thread's own
    distribution. *)
Definition GetNormallyDistributedNumber (rd : Z) (fuel : nat)
    (tl : thread_locals) : option (double * thread_locals) :=
  let generator := default (MT19937.make rd) (generator tl) in
  let gaus := default (Normal.make 0%float 1%float) (gaus tl) in
  '(v, gaus, generator) ← Normal.call log fuel gaus generator;
  Some (v, ThreadLocals (Some generator) (Some gaus)).
End Shared.

(** The first version of the tutorial (used with [DefineSlot]). *)
Module Slots.
Section Slots.
Variable log : double → double.

(** [double GetGlobalRNG() { return globalGaus(globalGenerator); }] *)
Definition GetGlobalRNG (fuel : nat) (gl : globals)
  : option (double * globals) :=
  '(v, gaus, generator) ←
    Normal.call log fuel (globalGaus gl) (globalGenerator gl);
  Some (v, Globals generator gaus).

(** [double GetThreadSafeRNG(unsigned int slot)] *)
Definition GetThreadSafeRNG (rd : Z) (fuel : nat) (slot : Z)
    (tl : thread_locals) : option (double * thread_locals) :=
  let generator := default (MT19937.make rd) (generator tl) in
  let gaus := default (Normal.make 0%float 1%float) (gaus tl) in
  '(v, gaus, generator) ← Normal.call log fuel gaus generator;
  Some (v, ThreadLocals (Some generator) (Some gaus)).
End Slots.
End Slots.

(** The version that keeps a [thread_local] engine and distribution and
    resets and reseeds them on every call. *)
Module Reseed.
Section Reseed.
Variable log : double → double.

(** [double GetNormallyDistributedNumberForEntry(unsigned long long entry)
     { thread_local std::mt19937 generator;
       thread_local std::normal_distribution<double> gaus(0., 1.);
       gaus.reset();
       generator.seed(entry);
       return gaus(generator); }] *)
Definition GetNormallyDistributedNumberForEntry (fuel : nat)
    (tl : thread_locals) (entry : Z) : option (double * thread_locals) :=
  let generator := default MT19937.make_default (generator tl) in
  let gaus := default (Normal.make 0%float 1%float) (gaus tl) in
  let gaus := Normal.reset gaus in
  let generator := MT19937.seed generator (MT19937.to_result_type entry) in
  '(v, gaus, generator) ← Normal.call log fuel gaus generator;
  Some (v, ThreadLocals (Some generator) (Some gaus)).

(** The same function with the call [gaus.reset()] left out: the
    variant the comment in the source warns against. Not code of the
    tutorial; it is here to state what the call is needed for. *)
Definition without_reset (fuel : nat)
    (tl : thread_locals) (entry : Z) : option (double * thread_locals) :=
  let generator := default MT19937.make_default (generator tl) in
  let gaus := default (Normal.make 0%float 1%float) (gaus tl) in
  let generator := MT19937.seed generator (MT19937.to_result_type entry) in
  '(v, gaus, generator) ← Normal.call log fuel gaus generator;
  Some (v, ThreadLocals (Some generator) (Some gaus)).
End Reseed.
End Reseed.

(** The version that builds a new engine and a new distribution for every
    entry. *)
Module Fresh.
Section Fresh.
Variable log : double → double.

(** [double GetNormallyDistributedNumberForEntry(unsigned long long entry)
     { std::mt19937 generator(entry);
       std::normal_distribution<double> gaus(0., 1.);
       return gaus(generator); }] *)
Definition GetNormallyDistributedNumberForEntry (fuel : nat) (entry : Z)
  : option double :=
  let generator := MT19937.make (MT19937.to_result_type entry) in
  let gaus := Normal.make 0%float 1%float in
  '(v, _, _) ← Normal.call log fuel gaus generator;
  Some v.
End Fresh.
End Fresh.

(** ** How the execution engine uses the functions

    The event loop of RDataFrame is not among the sources; the three
    definitions below follow the specification's scheduling model:
    [Define("x", f, {"rdfentry_"})] has every worker thread call [f] once
    for each entry it is given, in the order it is given them; which thread
    gets which entries, and in which order, is up to the engine. *)

Section Engine.
Context {St : Type}.

(** Modelled from the spec: the event loop of RDataFrame, on one worker.
    The worker serves [entries] one after the other with a function that
    threads its thread-local objects. *)
Fixpoint worker_run (f : St → Z → option (double * St))
    (tl : St) (entries : list Z) : option (list (Z * double)) :=
  match entries with
  | [] => Some []
  | entry :: rest =>
      '(v, tl) ← f tl entry;
      results ← worker_run f tl rest;
      Some ((entry, v) :: results)
  end.

(** Modelled from the spec: the event loop of RDataFrame, on all workers.
    A pass over the data: every worker, with the thread-local objects it
    starts from and the entries it is given; the results of all workers
    together. *)
Definition pass (f : St → Z → option (double * St))
    (workers : list (St * list Z)) : option (list (Z * double)) :=
  results ← mapM (λ '(tl, entries), worker_run f tl entries) workers;
  Some (concat results).

(** The entries of a pass. *)
Definition entries_of (workers : list (St * list Z)) : list Z :=
  concat (map snd workers).
End Engine.

(** Modelled from the spec: the event loop of RDataFrame for
    [Define("x", GetNormallyDistributedNumber)]: it calls the function for
    an entry without handing it the entry. A worker is a thread together
    with what its [random_device] delivers. *)
Definition free_running (log : double → double) (fuel : nat)
    (worker : Z * thread_locals) (entry : Z)
  : option (double * (Z * thread_locals)) :=
  '(v, tl) ← GetNormallyDistributedNumber log worker.1 fuel worker.2;
  Some (v, (worker.1, tl)).

(** The sample of an entry, paired with the entry. *)
Definition sample_of (log : double → double) (fuel : nat) (entry : Z)
  : option (Z * double) :=
  pair entry <$> Fresh.GetNormallyDistributedNumberForEntry log fuel entry.

(** ** Well-formed engine states

    Every word of the state is a 32-bit word, there are [n] of them, and
    the position never passes [n]. *)

Definition is_word (z : Z) : Prop := 0 ≤ z < MT19937.word_max.

Definition valid (g : MT19937.mt19937) : Prop :=
  length (MT19937._M_x g) = MT19937.n
  ∧ Forall is_word (MT19937._M_x g)
  ∧ (MT19937._M_p g ≤ MT19937.n)%nat.

(** A state of zeros. No seed gives it; the engine keeps it. *)
Definition zero_engine (p : nat) : MT19937.mt19937 :=
  MT19937.Engine (replicate MT19937.n 0) p.

(** The parameters of every distribution object of the tutorial are
    those of its declaration, [(0., 1.)]: no function changes them. *)
Definition params_ok (tl : thread_locals) : Prop :=
  ∀ dist, gaus tl = Some dist →
    Normal._M_mean dist = 0%float ∧ Normal._M_stddev dist = 1%float.

(** ** Values of the C library's logarithm

    [std::log] at the arguments that entries 0 to 3 lead to (glibc, x86-64),
    and a stand-in that is right at these arguments and NaN elsewhere, to
    run the functions on these entries. *)
Definition log_known_values : list (double * double) :=
  [ (0x1.04617724041d1p-1, -0x1.5a343b260e1c5p-1);
    (0x1.4917648750ac6p-2, -0x1.22984bba3aff1p+0);
    (0x1.9b0621da5baeap-1, -0x1.c1e3fc64c63f7p-3);
    (0x1.2f8170792c9e1p-1, -0x1.0bbcc237cc0dfp-1) ]%float.

Definition log_known (log : double → double) : Prop :=
  Forall (λ p, log p.1 = p.2) log_known_values.

Fixpoint log_lookup (table : list (double * double)) (r : double) : double :=
  match table with
  | [] => PrimFloat.nan
  | (r0, v) :: table' => if (r =? r0)%float then v else log_lookup table' r
  end.

Definition log_table : double → double := log_lookup log_known_values.

(** Thread-local objects other than new ones: an engine seeded by another
    entry and a distribution with a kept-back value. *)
Definition thread_used : thread_locals :=
  ThreadLocals (Some (MT19937.make 7))
    (Some (Normal.Dist 0%float 1%float 0x1.3612929386754p-2%float true)).

(** What a new thread holds after it has served entry 0. *)
Definition after_entry0 : double * thread_locals :=
  default (0%float, thread_start)
    (Reseed.GetNormallyDistributedNumberForEntry log_table 3 thread_start 0).

(** ** Successive calls and engine positions *)

(** [count] calls of the engine in a row; the engine after them. *)
Fixpoint advance (count : nat) (g : MT19937.mt19937) : MT19937.mt19937 :=
  match count with
  | O => g
  | S count' => advance count' (MT19937.next g).2
  end.

(** [count] calls in a row, by one thread, of a function without
    arguments that threads its objects; the values in order and the objects
    after the last call. *)
Fixpoint successive {St : Type} (f : St → option (double * St))
    (count : nat) (st : St) : option (list double * St) :=
  match count with
  | O => Some ([], st)
  | S count' =>
      '(v, st) ← f st;
      '(vs, st) ← successive f count' st;
      Some (v :: vs, st)
  end.

(** The thread-local engine, once built, is a well-formed state. *)
Definition engine_ok (tl : thread_locals) : Prop :=
  ∀ g, generator tl = Some g → valid g.

(** The objects with static storage duration: a well-formed engine and the
    parameters of the declaration. *)
Definition globals_ok (gl : globals) : Prop :=
  valid (globalGenerator gl)
  ∧ Normal._M_mean (globalGaus gl) = 0%float
  ∧ Normal._M_stddev (globalGaus gl) = 1%float.

(** The thread-local objects of a thread hold what the global objects
    hold (or, not yet built, will be built to hold it). *)
Definition mirrors (rd : Z) (gl : globals) (tl : thread_locals) : Prop :=
  default (MT19937.make rd) (generator tl) = globalGenerator gl
  ∧ default (Normal.make 0%float 1%float) (gaus tl) = globalGaus gl.

(** The global objects after the first call, when the [random_device]
    delivered 0; two calls by the global function and by a thread. *)
Definition after_global0 : double * globals :=
  default (0%float, globals_init 0)
    (GetGlobalNormallyDistributedNumber log_table 3 (globals_init 0)).

Definition global_run2 : list double * globals :=
  default ([], globals_init 0)
    (successive (GetGlobalNormallyDistributedNumber log_table 3) 2
       (globals_init 0)).

Definition thread_run2 : list double * thread_locals :=
  default ([], thread_start)
    (successive (GetNormallyDistributedNumber log_table 0 3) 2 thread_start).

(** * Properties *)

Lemma log_table_known : log_known log_table.
Proof. repeat constructor. Qed.

(** ** The engine *)

Example mt19937_first : fst (MT19937.next MT19937.make_default) = 3499211612.
Proof. vm_compute. reflexivity. Qed.

(** ISO C++ [rand.predef]: the 10000th consecutive invocation of a
    default-constructed [mt19937] produces 4123659995. *)
Example mt19937_10000th :
  MT19937.discard_then_next 9999 MT19937.make_default = 4123659995.
Proof. vm_compute. reflexivity. Qed.

Lemma seed_forgets g1 g2 value : MT19937.seed g1 value = MT19937.seed g2 value.
Proof. reflexivity. Qed.

Lemma seed_as_make g value : MT19937.seed g value = MT19937.make value.
Proof. reflexivity. Qed.

Lemma word_max_divides :
  2 ^ MT19937.result_type_bits = 2 ^ 32 * MT19937.word_max.
Proof. reflexivity. Qed.

(** Only the low 32 bits of an [unsigned long long] reach the state. *)
Lemma seed_low_bits g entry :
  MT19937.seed g (MT19937.to_result_type entry) = MT19937.seed g entry.
Proof.
  unfold MT19937.seed, MT19937.to_result_type.
  replace ((entry mod 2 ^ MT19937.result_type_bits) mod MT19937.word_max)
    with (entry mod MT19937.word_max); [done|].
  rewrite word_max_divides, Z.mul_comm.
  rewrite Z.rem_mul_r by (unfold MT19937.word_max, MT19937.w; lia).
  rewrite Z.mul_comm, Z.mod_add by (unfold MT19937.word_max, MT19937.w; lia).
  by rewrite Z.mod_mod by (unfold MT19937.word_max, MT19937.w; lia).
Qed.

Lemma seed_congruent g entry1 entry2 :
  entry1 mod 2 ^ 32 = entry2 mod 2 ^ 32 →
  MT19937.seed g (MT19937.to_result_type entry1)
  = MT19937.seed g (MT19937.to_result_type entry2).
Proof.
  intros Heq. rewrite !seed_low_bits. unfold MT19937.seed.
  change MT19937.word_max with (2 ^ 32). by rewrite Heq.
Qed.

(** *** The state stays a state

    The reads of [next] and of [gen_rand] are reads of state words. *)

Lemma is_word_land_ones z : is_word z ↔ Z.land z (Z.ones 32) = z.
Proof.
  unfold is_word. change MT19937.word_max with (2 ^ 32).
  rewrite Z.land_ones by lia. split.
  - intros Hz. by apply Z.mod_small.
  - intros <-. apply Z.mod_pos_bound. lia.
Qed.

Lemma is_word_lxor x y : is_word x → is_word y → is_word (Z.lxor x y).
Proof.
  rewrite !is_word_land_ones. intros Hx Hy.
  apply Z.bits_inj'. intros i _.
  rewrite Z.land_spec, Z.lxor_spec.
  rewrite <- Hx, <- Hy, !Z.land_spec.
  by destruct (Z.testbit x i), (Z.testbit y i), (Z.testbit (Z.ones 32) i).
Qed.

Lemma is_word_lor x y : is_word x → is_word y → is_word (Z.lor x y).
Proof.
  rewrite !is_word_land_ones. intros Hx Hy.
  by rewrite Z.land_lor_distr_l, Hx, Hy.
Qed.

Lemma is_word_land_l x y : is_word x → is_word (Z.land x y).
Proof.
  rewrite !is_word_land_ones. intros Hx.
  by rewrite <- Z.land_assoc, (Z.land_comm y), Z.land_assoc, Hx.
Qed.

Lemma is_word_land_r x y : is_word y → is_word (Z.land x y).
Proof. rewrite Z.land_comm. apply is_word_land_l. Qed.

Lemma is_word_shiftr x k : 0 ≤ k → is_word x → is_word (Z.shiftr x k).
Proof.
  unfold is_word. intros Hk [Hx0 Hx]. split.
  - by apply Z.shiftr_nonneg.
  - rewrite Z.shiftr_div_pow2 by done.
    apply Z.div_lt_upper_bound; [lia|].
    assert (1 ≤ 2 ^ k) by (apply (Z.pow_le_mono_r 2 0 k); lia). nia.
Qed.

Lemma is_word_mod z : is_word (z mod MT19937.word_max).
Proof. apply Z.mod_pos_bound. done. Qed.

Lemma is_word_zero : is_word 0.
Proof. done. Qed.

Lemma is_word_lookup x i : Forall is_word x → is_word (MT19937.word x i).
Proof.
  intros Hx. unfold MT19937.word.
  destruct (x !! i) as [z|] eqn:Hi; simpl; [|apply is_word_zero].
  by apply (Forall_lookup_1 _ _ _ _ Hx Hi).
Qed.

Lemma is_word_temper z : is_word z → is_word (MT19937.temper z).
Proof.
  intros Hz. unfold MT19937.temper.
  assert (is_word MT19937.b) as Hb by done.
  assert (is_word MT19937.c) as Hc by done.
  assert (is_word MT19937.d) as Hd by done.
  repeat first
    [ apply is_word_lxor
    | apply is_word_land_r; assumption
    | apply is_word_shiftr; [done|]
    | assumption ].
Qed.

Lemma seed_fill_length count i prev :
  length (MT19937.seed_fill count i prev) = count.
Proof.
  revert i prev. induction count as [|count IH]; intros i prev; [done|].
  cbn [MT19937.seed_fill length]. by rewrite IH.
Qed.

Lemma seed_fill_words count i prev :
  Forall is_word (MT19937.seed_fill count i prev).
Proof.
  revert i prev. induction count as [|count IH]; intros i prev.
  - constructor.
  - cbn [MT19937.seed_fill]. constructor; [apply is_word_mod|apply IH].
Qed.

(** Every value is a valid seed: seeding always yields a state. *)
Lemma seed_valid g value : valid (MT19937.seed g value).
Proof.
  unfold valid, MT19937.seed. cbn [MT19937._M_x MT19937._M_p length].
  rewrite seed_fill_length. split; [done|]. split; [|done].
  constructor; [apply is_word_mod|apply seed_fill_words].
Qed.

Lemma twist_at_words x k :
  Forall is_word x → Forall is_word (MT19937.twist_at x k).
Proof.
  intros Hx. unfold MT19937.twist_at.
  apply Forall_insert; [done|].
  assert (is_word MT19937.a) as Ha by done.
  repeat first
    [ apply is_word_lxor
    | apply is_word_lor
    | apply is_word_land_l
    | apply is_word_shiftr; [done|]
    | apply is_word_lookup; assumption ].
  destruct (Z.testbit _ 0); [done|apply is_word_zero].
Qed.

Lemma twist_at_length x k : length (MT19937.twist_at x k) = length x.
Proof. apply length_insert. Qed.

Lemma gen_rand_valid x :
  length x = MT19937.n → Forall is_word x →
  length (MT19937.gen_rand x) = MT19937.n
  ∧ Forall is_word (MT19937.gen_rand x).
Proof.
  unfold MT19937.gen_rand. generalize (seq 0 MT19937.n) as ks.
  intros ks. revert x. induction ks as [|k ks IH]; intros x Hlen Hx; [done|].
  cbn [foldl]. apply IH; [by rewrite twist_at_length|by apply twist_at_words].
Qed.

(** A call of the engine on a state yields a 32-bit value, read from inside
    the state, and a state. *)
Lemma next_valid g :
  valid g →
  is_word (MT19937.next g).1 ∧ valid (MT19937.next g).2
  ∧ (0 < MT19937._M_p (MT19937.next g).2)%nat
  ∧ is_Some (MT19937._M_x (MT19937.next g).2
               !! pred (MT19937._M_p (MT19937.next g).2)).
Proof.
  intros (Hlen & Hx & Hp). unfold MT19937.next.
  destruct (decide (MT19937.n ≤ MT19937._M_p g)%nat) as [Hge|Hlt].
  - destruct (gen_rand_valid _ Hlen Hx) as [Hlen' Hx'].
    cbn [fst snd MT19937._M_x MT19937._M_p pred].
    split; [by apply is_word_temper, is_word_lookup|].
    split; [unfold valid; cbn [MT19937._M_x MT19937._M_p]|].
    + split; [done|]. split; [done|]. unfold MT19937.n. lia.
    + split; [lia|]. apply lookup_lt_is_Some. rewrite Hlen'.
      unfold MT19937.n. lia.
  - cbn [fst snd MT19937._M_x MT19937._M_p pred].
    split; [by apply is_word_temper, is_word_lookup|].
    split; [unfold valid; cbn [MT19937._M_x MT19937._M_p]|].
    + split; [done|]. split; [done|]. lia.
    + split; [lia|]. apply lookup_lt_is_Some. lia.
Qed.

(** ** The distribution *)

Section Distribution.
Variable log : double → double.

(** After [reset()] a distribution behaves as a newly built one with the
    same parameters. *)
Lemma call_reset fuel dist g :
  Normal.call log fuel (Normal.reset dist) g
  = Normal.call log fuel
      (Normal.make (Normal._M_mean dist) (Normal._M_stddev dist)) g.
Proof. reflexivity. Qed.

(** More rounds do not change a result. *)
Lemma polar_fuel_mono fuel fuel' g res :
  (fuel ≤ fuel')%nat → Normal.polar fuel g = Some res →
  Normal.polar fuel' g = Some res.
Proof.
  revert fuel' g. induction fuel as [|fuel IH]; intros fuel' g Hle Hres.
  - discriminate.
  - destruct fuel' as [|fuel']; [lia|].
    simpl in *.
    destruct (Canonical.generate_canonical g) as [u1 g1].
    destruct (Canonical.generate_canonical g1) as [u2 g2].
    destruct (_ || _); [apply IH; [lia|done]|done].
Qed.

Lemma call_fuel_mono fuel fuel' dist g res :
  (fuel ≤ fuel')%nat → Normal.call log fuel dist g = Some res →
  Normal.call log fuel' dist g = Some res.
Proof.
  intros Hle. unfold Normal.call.
  destruct (Normal._M_saved_available dist); [done|].
  destruct (Normal.polar fuel g) as [res0|] eqn:Hp; [|done].
  by rewrite (polar_fuel_mono _ _ _ _ Hle Hp).
Qed.

(** The logarithm and the division are reached only with an [r2] that is
    neither above 1 nor zero. *)
Lemma polar_accepts fuel g x y r2 g' :
  Normal.polar fuel g = Some (x, y, r2, g') →
  (1 <? r2)%float = false ∧ (r2 =? 0)%float = false.
Proof.
  revert g. induction fuel as [|fuel IH]; intros g; [done|].
  cbn [Normal.polar].
  destruct (Canonical.generate_canonical g) as [u1 g1].
  destruct (Canonical.generate_canonical g1) as [u2 g2].
  destruct (_ || _) eqn:Hreject; [apply IH|].
  intros [= _ _ <- _]. by apply orb_false_elim in Hreject.
Qed.

(** That the rejection loop ends is a property of the numbers the engine
    delivers, not of the loop: on the state of zeros every round is
    rejected. *)
Lemma gen_rand_zero :
  MT19937.gen_rand (replicate MT19937.n 0) = replicate MT19937.n 0.
Proof. vm_compute. reflexivity. Qed.

Lemma zero_words q : MT19937.word (replicate MT19937.n 0) q = 0.
Proof.
  unfold MT19937.word.
  destruct (replicate MT19937.n 0 !! q) as [z|] eqn:Hq; [|done].
  by apply lookup_replicate in Hq as [-> _].
Qed.

Lemma next_zero p : ∃ p', MT19937.next (zero_engine p) = (0, zero_engine p').
Proof.
  unfold MT19937.next, zero_engine. cbn [MT19937._M_x MT19937._M_p].
  destruct (decide (MT19937.n ≤ p)%nat).
  - rewrite gen_rand_zero, zero_words. by exists 1%nat.
  - rewrite zero_words. by exists (S p).
Qed.

Lemma generate_canonical_zero p :
  ∃ p',
    Canonical.generate_canonical (zero_engine p) = (0%float, zero_engine p').
Proof.
  unfold Canonical.generate_canonical.
  change Canonical.calls with 2%nat. cbn [Canonical.accumulate].
  destruct (next_zero p) as [p1 ->]. destruct (next_zero p1) as [p2 ->].
  by exists p2.
Qed.

Lemma polar_zero_engine fuel p : Normal.polar fuel (zero_engine p) = None.
Proof.
  revert p. induction fuel as [|fuel IH]; intros p; [done|].
  cbn [Normal.polar].
  destruct (generate_canonical_zero p) as [p1 ->].
  destruct (generate_canonical_zero p1) as [p2 ->].
  apply IH.
Qed.

Lemma seed_first_words g value :
  let x0 := value mod MT19937.word_max in
  MT19937.word (MT19937._M_x (MT19937.seed g value)) 0 = x0
  ∧ MT19937.word (MT19937._M_x (MT19937.seed g value)) 1
    = (MT19937.f * Z.lxor x0 (Z.shiftr x0 30) + 1) mod MT19937.word_max.
Proof. split; reflexivity. Qed.

Lemma seed_not_zero g value p : MT19937.seed g value ≠ zero_engine p.
Proof.
  intros Hzero. destruct (seed_first_words g value) as [H0 H1].
  rewrite Hzero in H0, H1. unfold zero_engine in H0, H1.
  cbn [MT19937._M_x] in H0, H1. rewrite zero_words in H0, H1.
  rewrite <- H0 in H1. vm_compute in H1. discriminate.
Qed.

(** The parameters survive a call. *)
Lemma call_params fuel dist g v dist' g' :
  Normal.call log fuel dist g = Some (v, dist', g') →
  Normal._M_mean dist' = Normal._M_mean dist
  ∧ Normal._M_stddev dist' = Normal._M_stddev dist.
Proof.
  unfold Normal.call.
  destruct (Normal._M_saved_available dist).
  - intros [= <- <- <-]. done.
  - destruct (Normal.polar fuel g) as [[[[x y] r2] g0]|]; [|done].
    intros [= <- <- <-]. done.
Qed.
End Distribution.

(** ** The reseeding function and the rebuilding function *)

Section PerEntry.
Variable log : double → double.

Lemma thread_start_ok : params_ok thread_start.
Proof. intros dist [=]. Qed.

(** Whatever the thread-local objects hold, the distribution that samples
    behaves as the one of the declaration, without a kept-back value. *)
Lemma reset_gaus fuel tl g :
  params_ok tl →
  Normal.call log fuel
    (Normal.reset (default (Normal.make 0%float 1%float) (gaus tl))) g
  = Normal.call log fuel (Normal.make 0%float 1%float) g.
Proof.
  intros Hok. rewrite call_reset.
  destruct (gaus tl) as [dist|] eqn:Hg; [|done].
  destruct (Hok dist Hg) as [Hm Hs]. simpl. by rewrite Hm, Hs.
Qed.

(** The whole result of the reseeding function, written without any
    thread-local object. *)
Lemma reseed_unfold fuel tl entry :
  params_ok tl →
  Reseed.GetNormallyDistributedNumberForEntry log fuel tl entry
  = '(v, gaus, generator) ←
      Normal.call log fuel (Normal.make 0%float 1%float)
        (MT19937.make (MT19937.to_result_type entry));
    Some (v, ThreadLocals (Some generator) (Some gaus)).
Proof.
  intros Hok. unfold Reseed.GetNormallyDistributedNumberForEntry.
  by rewrite (reset_gaus _ tl _ Hok), seed_as_make.
Qed.

Lemma reseed_params_ok fuel tl entry v tl' :
  params_ok tl →
  Reseed.GetNormallyDistributedNumberForEntry log fuel tl entry
    = Some (v, tl') →
  params_ok tl'.
Proof.
  intros Hok. rewrite (reseed_unfold _ _ _ Hok).
  destruct (Normal.call _ _ _ _) as [[[v0 dist0] g0]|] eqn:Hcall; [|done].
  intros [= <- <-] dist [= <-].
  by destruct (call_params _ _ _ _ _ _ _ Hcall) as [-> ->].
Qed.

Lemma reseed_value fuel tl entry :
  params_ok tl →
  fst <$> Reseed.GetNormallyDistributedNumberForEntry log fuel tl entry
  = Fresh.GetNormallyDistributedNumberForEntry log fuel entry.
Proof.
  intros Hok. rewrite (reseed_unfold _ _ _ Hok).
  unfold Fresh.GetNormallyDistributedNumberForEntry.
  by destruct (Normal.call _ _ _ _) as [[[v0 dist0] g0]|].
Qed.

(** More rounds do not change the value of an entry. *)
Lemma fresh_fuel_mono fuel fuel' entry v :
  (fuel ≤ fuel')%nat →
  Fresh.GetNormallyDistributedNumberForEntry log fuel entry = Some v →
  Fresh.GetNormallyDistributedNumberForEntry log fuel' entry = Some v.
Proof.
  intros Hle. unfold Fresh.GetNormallyDistributedNumberForEntry.
  destruct (Normal.call log fuel _ _) as [[[v0 dist0] g0]|] eqn:Hcall; [|done].
  by rewrite (call_fuel_mono _ _ _ _ _ _ Hle Hcall).
Qed.

(** C1. The result of [GetNormallyDistributedNumberForEntry] on an entry
    is the same whatever the thread-local engine and distribution hold
    when it is called: what earlier calls seeded, how many numbers they
    drew, which value they kept back. It is determined by the entry (and
    the parameters 0 and 1 of the declaration); so is the state the call
    leaves behind. *)
Theorem entry_result_ignores_thread_state fuel tl1 tl2 entry :
  params_ok tl1 → params_ok tl2 →
  Reseed.GetNormallyDistributedNumberForEntry log fuel tl1 entry
  = Reseed.GetNormallyDistributedNumberForEntry log fuel tl2 entry.
Proof.
  intros Hok1 Hok2.
  by rewrite (reseed_unfold _ _ _ Hok1), (reseed_unfold _ _ _ Hok2).
Qed.

(** C2. Resetting and reseeding the thread-local objects in place gives,
    for every entry, the sample that a newly built [mt19937(entry)] and
    a newly built [normal_distribution(0., 1.)] give. *)
Theorem reseed_in_place_equals_build_fresh fuel tl entry :
  params_ok tl →
  fst <$> Reseed.GetNormallyDistributedNumberForEntry log fuel tl entry
  = Fresh.GetNormallyDistributedNumberForEntry log fuel entry.
Proof.
  intros Hok. rewrite (reseed_unfold _ _ _ Hok).
  unfold Fresh.GetNormallyDistributedNumberForEntry.
  destruct (Normal.call log fuel _ _) as [[[v dist] g]|]; reflexivity.
Qed.

(** C3. No leak from one entry to the next: when a thread that has just
    served [id1], starting with new thread-local objects, serves [id2],
    the value for [id2] is the one a thread with new thread-local objects
    produces for [id2]. *)
Theorem no_cross_item_leakage fuel id1 id2 v1 tl1 :
  Reseed.GetNormallyDistributedNumberForEntry log fuel thread_start id1
    = Some (v1, tl1) →
  fst <$> Reseed.GetNormallyDistributedNumberForEntry log fuel tl1 id2
  = fst <$> Reseed.GetNormallyDistributedNumberForEntry log fuel
              thread_start id2.
Proof.
  intros Hfirst.
  assert (params_ok tl1) as Hok1
    by exact (reseed_params_ok _ _ _ _ _ thread_start_ok Hfirst).
  by rewrite (reseed_value _ _ _ Hok1), (reseed_value _ _ _ thread_start_ok).
Qed.

(** C9. The seed is a 32-bit quantity: two entries that agree modulo
    2^32 get the same result, from the reseeding function (on any
    thread-local state) and from the rebuilding function. *)
Theorem seed_truncation fuel tl entry1 entry2 :
  entry1 mod 2 ^ 32 = entry2 mod 2 ^ 32 →
  Reseed.GetNormallyDistributedNumberForEntry log fuel tl entry1
  = Reseed.GetNormallyDistributedNumberForEntry log fuel tl entry2
  ∧ Fresh.GetNormallyDistributedNumberForEntry log fuel entry1
    = Fresh.GetNormallyDistributedNumberForEntry log fuel entry2.
Proof.
  intros Hcong. split.
  - unfold Reseed.GetNormallyDistributedNumberForEntry.
    by rewrite (seed_congruent _ _ _ Hcong).
  - unfold Fresh.GetNormallyDistributedNumberForEntry, MT19937.make.
    by rewrite (seed_congruent _ _ _ Hcong).
Qed.

(** C10. [GetThreadSafeRNG] does not look at its [slot] argument. *)
Theorem slot_is_ignored rd fuel slot1 slot2 tl :
  Slots.GetThreadSafeRNG log rd fuel slot1 tl
  = Slots.GetThreadSafeRNG log rd fuel slot2 tl.
Proof. reflexivity. Qed.
End PerEntry.

(** ** Passes of the execution engine *)

Section OptionLists.
Context {A B : Type} (g : A → option B).

Lemma mapM_option_app l1 l2 :
  mapM g (l1 ++ l2)
  = k1 ← mapM g l1; k2 ← mapM g l2; Some (k1 ++ k2).
Proof.
  induction l1 as [|x l1 IH]; simpl.
  - by destruct (mapM g l2).
  - destruct (g x) as [y|]; simpl; [|done].
    rewrite IH. destruct (mapM g l1) as [k1|]; simpl; [|done].
    by destruct (mapM g l2).
Qed.

Lemma mapM_option_perm l l' :
  l ≡ₚ l' →
  ∀ k, mapM g l = Some k → ∃ k', mapM g l' = Some k' ∧ k ≡ₚ k'.
Proof.
  induction 1 as [|x l l' _ IH|x1 x2 l|l l' l'' _ IH1 _ IH2]; intros k Hk.
  - exists k. done.
  - simpl in *. destruct (g x) as [y|]; simpl in *; [|done].
    destruct (mapM g l) as [k0|]; simpl in *; [|done].
    injection Hk as <-. destruct (IH k0 eq_refl) as (k0' & -> & Hperm).
    exists (y :: k0'). split; [done|]. by constructor.
  - simpl in *. destruct (g x2) as [y2|]; simpl in *; [|done].
    destruct (g x1) as [y1|]; simpl in *; [|done].
    destruct (mapM g l) as [k0|]; simpl in *; [|done].
    injection Hk as <-. exists (y1 :: y2 :: k0). split; [done|]. constructor.
  - destruct (IH1 k Hk) as (k' & Hk' & Hperm1).
    destruct (IH2 k' Hk') as (k'' & Hk'' & Hperm2).
    exists k''. split; [done|]. by etrans.
Qed.
End OptionLists.

Section Passes.
Variable log : double → double.

(** What one worker returns does not depend on its thread-local objects or
    on the order of its entries other than through the order of the list
    returned. *)
Lemma worker_run_samples fuel tl entries :
  params_ok tl →
  worker_run (Reseed.GetNormallyDistributedNumberForEntry log fuel) tl entries
  = mapM (sample_of log fuel) entries.
Proof.
  revert tl. induction entries as [|entry rest IH]; intros tl Hok; [done|].
  cbn [worker_run mapM].
  pose proof (reseed_value log fuel tl entry Hok) as Hv.
  destruct (Reseed.GetNormallyDistributedNumberForEntry log fuel tl entry)
    as [[v tl']|] eqn:Hcall; simpl in Hv.
  - simpl. rewrite (IH tl' (reseed_params_ok _ _ _ _ _ _ Hok Hcall)).
    unfold sample_of. by rewrite <- Hv.
  - unfold sample_of. by rewrite <- Hv.
Qed.

Lemma pass_samples fuel (workers : list (thread_locals * list Z)) :
  Forall (λ worker, params_ok worker.1) workers →
  pass (Reseed.GetNormallyDistributedNumberForEntry log fuel) workers
  = mapM (sample_of log fuel) (entries_of workers).
Proof.
  unfold pass, entries_of.
  induction 1 as [|[tl entries] workers Hok _ IH]; [done|].
  simpl in *. rewrite mapM_option_app, (worker_run_samples _ _ _ Hok).
  destruct (mapM (sample_of log fuel) entries) as [k1|]; simpl; [|done].
  rewrite <- IH.
  by destruct (mapM _ workers) as [ks|].
Qed.

(** Every value of a pass is the sample of its entry: however many workers
    there are, whatever they hold when the pass starts and however the
    entries are dealt out. *)
Lemma pass_value fuel (workers : list (thread_locals * list Z)) results
    entry v :
  Forall (λ worker, params_ok worker.1) workers →
  pass (Reseed.GetNormallyDistributedNumberForEntry log fuel) workers
    = Some results →
  (entry, v) ∈ results →
  Fresh.GetNormallyDistributedNumberForEntry log fuel entry = Some v.
Proof.
  intros Hok. rewrite (pass_samples _ _ Hok), mapM_Some.
  intros Hall Hin.
  destruct (proj1 (list_elem_of_lookup _ _) Hin) as [i Hi].
  destruct (Forall2_lookup_r _ _ _ _ _ Hall Hi) as (entry' & _ & Hs).
  unfold sample_of in Hs.
  destruct (Fresh.GetNormallyDistributedNumberForEntry log fuel entry')
    as [v'|] eqn:Hf; simpl in Hs; [|done].
  by injection Hs as <- <-.
Qed.

(** C4. Order independence: when the same entries are dealt out to the
    workers in any other order (to any number of workers, holding
    anything), the pass returns the same (entry, value) pairs; only their
    order may differ. *)
Theorem order_independence fuel
    (workers workers' : list (thread_locals * list Z)) results :
  Forall (λ worker, params_ok worker.1) workers →
  Forall (λ worker, params_ok worker.1) workers' →
  entries_of workers ≡ₚ entries_of workers' →
  pass (Reseed.GetNormallyDistributedNumberForEntry log fuel) workers
    = Some results →
  ∃ results',
    pass (Reseed.GetNormallyDistributedNumberForEntry log fuel) workers'
      = Some results'
    ∧ results ≡ₚ results'.
Proof.
  intros Hok Hok' Hperm.
  rewrite (pass_samples _ _ Hok), (pass_samples _ _ Hok').
  by apply mapM_option_perm.
Qed.
End Passes.

(** ** What the reset is for, and the free-running generator *)

Lemma float_neq (x y : double) :
  (x =? y)%float = false → (y =? y)%float = true → x ≠ y.
Proof. intros Hxy Hyy ->. congruence. Qed.

Section KnownLog.
Variable log : double → double.
Hypothesis Hlog : log_known log.

Lemma log_at_seed0 :
  log 0x1.04617724041d1p-1%float = (-0x1.5a343b260e1c5p-1)%float.
Proof. exact (Forall_inv Hlog). Qed.

Lemma log_at_seed1 :
  log 0x1.4917648750ac6p-2%float = (-0x1.22984bba3aff1p+0)%float.
Proof. exact (Forall_inv (Forall_inv_tail Hlog)). Qed.

(** C5. The reset is what makes the reseeding function right. With it, a
    thread that serves entry 0 and then entry 1 returns for entry 1 the
    value [v1] that entry 1 gets on a thread of its own. With the call
    [gaus.reset()] left out, the same thread returns, for whatever entry
    comes after entry 0, the value [kept] that the distribution kept back
    while it served entry 0; [kept] is not [v1], so the value of entry 1
    depends on whether its thread served entry 0 before. *)
Theorem reset_is_needed :
  ∃ v0 kept v1 : double,
    worker_run (Reseed.GetNormallyDistributedNumberForEntry log 3)
      thread_start [0; 1] = Some [(0, v0); (1, v1)]
    ∧ (∀ entry,
         worker_run (Reseed.without_reset log 3) thread_start [0; entry]
         = Some [(0, v0); (entry, kept)])
    ∧ worker_run (Reseed.without_reset log 3) thread_start [1]
      = Some [(1, v1)]
    ∧ kept ≠ v1.
Proof.
  exists 0x1.1f6f7d3ecd7b7p+0%float, 0x1.3612929386754p-2%float,
         (-0x1.197854c76de2ap-1)%float.
  split; [|split; [|split]].
  - vm_compute. rewrite log_at_seed0, log_at_seed1. reflexivity.
  - intros entry. vm_compute. rewrite log_at_seed0. reflexivity.
  - vm_compute. rewrite log_at_seed1. reflexivity.
  - by apply float_neq.
Qed.

(** C7. The free-running thread-local generator is not reproducible. The
    value an entry gets is not determined by the entry: with the same
    entries and the same [random_device] value, entry 0 gets [first] when
    its thread serves it first and [second] when the thread has served
    entry 1 before; and it gets [other] when the [random_device] delivers
    another value. The three values are different. *)
Theorem free_running_not_reproducible :
  ∃ first second other other' : double,
    pass (free_running log 3) [((0, thread_start), [0; 1])]
      = Some [(0, first); (1, second)]
    ∧ pass (free_running log 3) [((0, thread_start), [1; 0])]
      = Some [(1, first); (0, second)]
    ∧ pass (free_running log 3) [((1, thread_start), [0; 1])]
      = Some [(0, other); (1, other')]
    ∧ first ≠ second ∧ first ≠ other ∧ second ≠ other.
Proof.
  exists 0x1.1f6f7d3ecd7b7p+0%float, 0x1.3612929386754p-2%float,
         (-0x1.197854c76de2ap-1)%float, (-0x1.6722aa7627c47p+0)%float.
  split; [|split; [|split; [|split; [|split]]]].
  - vm_compute. rewrite log_at_seed0. reflexivity.
  - vm_compute. rewrite log_at_seed0. reflexivity.
  - vm_compute. rewrite log_at_seed1. reflexivity.
  - by apply float_neq.
  - by apply float_neq.
  - by apply float_neq.
Qed.
End KnownLog.

(** ** The functions on entries 0 to 3 *)

(** The samples of entries 0 and 1 with the tabulated logarithm; entry 1
    needs three rounds of the rejection loop. *)
Example sample_entry0 :
  Fresh.GetNormallyDistributedNumberForEntry log_table 1 0
  = Some 0x1.1f6f7d3ecd7b7p+0%float.
Proof. vm_compute. reflexivity. Qed.

Example sample_entry1 :
  Fresh.GetNormallyDistributedNumberForEntry log_table 2 1 = None
  ∧ Fresh.GetNormallyDistributedNumberForEntry log_table 3 1
    = Some (-0x1.197854c76de2ap-1)%float.
Proof. split; vm_compute; reflexivity. Qed.

Lemma entry_result_ignores_thread_state_witness :
  params_ok thread_start ∧ params_ok thread_used
  ∧ Reseed.GetNormallyDistributedNumberForEntry log_table 3 thread_start 1
    = Reseed.GetNormallyDistributedNumberForEntry log_table 3 thread_used 1.
Proof.
  assert (params_ok thread_start) as H1 by (intros dist [=]).
  assert (params_ok thread_used) as H2 by (intros dist [= <-]; done).
  split; [exact H1|]. split; [exact H2|].
  exact (entry_result_ignores_thread_state log_table 3 _ _ 1 H1 H2).
Defined.

Lemma reseed_in_place_equals_build_fresh_witness :
  params_ok thread_used
  ∧ fst <$> Reseed.GetNormallyDistributedNumberForEntry log_table 3
              thread_used 1
    = Fresh.GetNormallyDistributedNumberForEntry log_table 3 1.
Proof.
  assert (params_ok thread_used) as H by (intros dist [= <-]; done).
  split; [exact H|].
  exact (reseed_in_place_equals_build_fresh log_table 3 _ 1 H).
Defined.

Lemma no_cross_item_leakage_witness :
  Reseed.GetNormallyDistributedNumberForEntry log_table 3 thread_start 0
    = Some (after_entry0.1, after_entry0.2)
  ∧ fst <$> Reseed.GetNormallyDistributedNumberForEntry log_table 3
              after_entry0.2 1
    = fst <$> Reseed.GetNormallyDistributedNumberForEntry log_table 3
                thread_start 1.
Proof.
  assert (Reseed.GetNormallyDistributedNumberForEntry log_table 3
            thread_start 0 = Some (after_entry0.1, after_entry0.2)) as H
    by (vm_compute; reflexivity).
  split; [exact H|].
  exact (no_cross_item_leakage log_table 3 0 1 _ _ H).
Defined.

Lemma seed_truncation_witness :
  5 mod 2 ^ 32 = (5 + 2 ^ 32) mod 2 ^ 32
  ∧ Reseed.GetNormallyDistributedNumberForEntry log_table 3 thread_used 5
    = Reseed.GetNormallyDistributedNumberForEntry log_table 3 thread_used
        (5 + 2 ^ 32)
  ∧ Fresh.GetNormallyDistributedNumberForEntry log_table 3 5
    = Fresh.GetNormallyDistributedNumberForEntry log_table 3 (5 + 2 ^ 32).
Proof.
  assert (5 mod 2 ^ 32 = (5 + 2 ^ 32) mod 2 ^ 32) as H by reflexivity.
  split; [exact H|].
  exact (seed_truncation log_table 3 thread_used 5 (5 + 2 ^ 32) H).
Defined.

Lemma order_independence_witness :
  let workers := [(thread_start, [0; 1]); (thread_used, [2])] in
  let workers' := [(thread_used, [2; 0]); (thread_start, []);
                   (thread_start, [1])] in
  let results := [(0, 0x1.1f6f7d3ecd7b7p+0%float);
                  (1, (-0x1.197854c76de2ap-1)%float);
                  (2, (-0x1.71b367d73cf1ap-6)%float)] in
  pass (Reseed.GetNormallyDistributedNumberForEntry log_table 3) workers
    = Some results
  ∧ ∃ results',
      pass (Reseed.GetNormallyDistributedNumberForEntry log_table 3) workers'
        = Some results'
      ∧ results ≡ₚ results'.
Proof.
  intros workers workers' results.
  assert (params_ok thread_start) as H1 by (intros dist [=]).
  assert (params_ok thread_used) as H2 by (intros dist [= <-]; done).
  assert (pass (Reseed.GetNormallyDistributedNumberForEntry log_table 3)
            workers = Some results) as Hpass by (vm_compute; reflexivity).
  split; [exact Hpass|].
  apply (order_independence log_table 3 workers workers' results).
  - unfold workers. repeat (constructor; [assumption|]). constructor.
  - unfold workers'. repeat (constructor; [assumption|]). constructor.
  - change ([0; 1; 2] ≡ₚ [2; 0; 1]).
    etrans; [apply perm_skip, perm_swap|apply perm_swap].
  - exact Hpass.
Defined.

Lemma reset_is_needed_witness :
  log_known log_table
  ∧ ∃ v0 kept v1 : double,
      worker_run (Reseed.GetNormallyDistributedNumberForEntry log_table 3)
        thread_start [0; 1] = Some [(0, v0); (1, v1)]
      ∧ (∀ entry,
           worker_run (Reseed.without_reset log_table 3) thread_start
             [0; entry]
           = Some [(0, v0); (entry, kept)])
      ∧ worker_run (Reseed.without_reset log_table 3) thread_start [1]
        = Some [(1, v1)]
      ∧ kept ≠ v1.
Proof.
  assert (log_known log_table) as H by (repeat constructor).
  split; [exact H|]. exact (reset_is_needed log_table H).
Defined.

Lemma free_running_not_reproducible_witness :
  log_known log_table
  ∧ ∃ first second other other' : double,
      pass (free_running log_table 3) [((0, thread_start), [0; 1])]
        = Some [(0, first); (1, second)]
      ∧ pass (free_running log_table 3) [((0, thread_start), [1; 0])]
        = Some [(1, first); (0, second)]
      ∧ pass (free_running log_table 3) [((1, thread_start), [0; 1])]
        = Some [(0, other); (1, other')]
      ∧ first ≠ second ∧ first ≠ other ∧ second ≠ other.
Proof.
  assert (log_known log_table) as H by (repeat constructor).
  split; [exact H|]. exact (free_running_not_reproducible log_table H).
Defined.

(** * Further properties of the functions *)

(** ** How many numbers a call draws *)

Lemma advance_add a b g : advance (a + b) g = advance b (advance a g).
Proof.
  revert g. induction a as [|a IH]; intros g; [done|].
  cbn [Nat.add advance]. apply IH.
Qed.

Lemma advance_valid count g : valid g → valid (advance count g).
Proof.
  revert g. induction count as [|count IH]; intros g Hg; [done|].
  cbn [advance]. apply IH. by destruct (next_valid g Hg) as (_ & Hv & _).
Qed.

Lemma accumulate_engine k sum tmp g :
  (Canonical.accumulate k sum tmp g).2 = advance k g.
Proof.
  revert sum tmp g. induction k as [|k IH]; intros sum tmp g; [done|].
  cbn [Canonical.accumulate advance].
  destruct (MT19937.next g) as [v g1]. apply IH.
Qed.

(** A [double] in [0, 1) costs two calls of the engine. *)
Lemma generate_canonical_engine g :
  (Canonical.generate_canonical g).2 = advance 2 g.
Proof.
  unfold Canonical.generate_canonical.
  pose proof (accumulate_engine Canonical.calls 0%float 1%float g) as Hacc.
  destruct (Canonical.accumulate _ _ _ g) as [[sum tmp] g'].
  exact Hacc.
Qed.

(** The rejection loop draws four numbers in every round. *)
Lemma polar_draws fuel g x y r2 g' :
  Normal.polar fuel g = Some (x, y, r2, g') →
  ∃ rounds, (1 ≤ rounds ≤ fuel)%nat ∧ g' = advance (4 * rounds) g.
Proof.
  revert g. induction fuel as [|fuel IH]; intros g; [done|].
  cbn [Normal.polar].
  pose proof (generate_canonical_engine g) as H1.
  destruct (Canonical.generate_canonical g) as [u1 g1].
  pose proof (generate_canonical_engine g1) as H2.
  destruct (Canonical.generate_canonical g1) as [u2 g2].
  cbn [snd] in H1, H2.
  assert (g2 = advance 4 g) as Hg2.
  { rewrite H2, H1. symmetry. apply (advance_add 2 2). }
  destruct (_ || _).
  - intros Hrest. destruct (IH g2 Hrest) as (rounds & Hrounds & ->).
    exists (S rounds). split; [lia|].
    rewrite Hg2, <- advance_add. f_equal. lia.
  - intros [= _ _ _ <-]. exists 1%nat. split; [lia|]. exact Hg2.
Qed.

Section Draws.
Variable log : double → double.

(** A call of the distribution: with a kept-back value it hands that value
    out and leaves the engine alone; without, it runs the loop and keeps
    a value back. *)
Lemma call_draws fuel dist g v dist' g' :
  Normal.call log fuel dist g = Some (v, dist', g') →
  (Normal._M_saved_available dist = true
   ∧ g' = g ∧ Normal._M_saved_available dist' = false)
  ∨ (Normal._M_saved_available dist = false
     ∧ Normal._M_saved_available dist' = true
     ∧ ∃ rounds, (1 ≤ rounds ≤ fuel)%nat ∧ g' = advance (4 * rounds) g).
Proof.
  unfold Normal.call. destruct (Normal._M_saved_available dist).
  - intros [= _ <- <-]. by left.
  - destruct (Normal.polar fuel g) as [[[[x y] r2] g0]|] eqn:Hpolar; [|done].
    intros [= _ <- <-]. right. split; [done|]. split; [done|].
    exact (polar_draws _ _ _ _ _ _ Hpolar).
Qed.

Lemma call_valid fuel dist g v dist' g' :
  valid g → Normal.call log fuel dist g = Some (v, dist', g') → valid g'.
Proof.
  intros Hg Hcall.
  destruct (call_draws _ _ _ _ _ _ Hcall)
    as [(_ & -> & _)|(_ & _ & rounds & _ & ->)]; [done|].
  by apply advance_valid.
Qed.

(** X1. Whatever the thread-local objects hold before, after a call of
    [GetNormallyDistributedNumberForEntry] that returns, the thread holds a
    well-formed engine (624 words of 32 bits, position at most 624) and a
    distribution whose parameters are the ones it had before the call
    (those of the declaration, 0 and 1, when this call builds it). *)
Theorem reseed_leaves_well_formed_state fuel tl entry v tl' :
  Reseed.GetNormallyDistributedNumberForEntry log fuel tl entry
    = Some (v, tl') →
  ∃ g dist,
    generator tl' = Some g ∧ valid g
    ∧ gaus tl' = Some dist
    ∧ Normal._M_mean dist
      = Normal._M_mean (default (Normal.make 0%float 1%float) (gaus tl))
    ∧ Normal._M_stddev dist
      = Normal._M_stddev (default (Normal.make 0%float 1%float) (gaus tl)).
Proof.
  unfold Reseed.GetNormallyDistributedNumberForEntry.
  destruct (Normal.call log fuel _ _) as [[[v0 dist0] g0]|] eqn:Hcall; [|done].
  intros [= <- <-]. exists g0, dist0. split; [done|].
  split; [exact (call_valid _ _ _ _ _ _ (seed_valid _ _) Hcall)|].
  split; [done|]. exact (call_params _ _ _ _ _ _ _ Hcall).
Qed.

(** X2. A call of [GetNormallyDistributedNumberForEntry] that returns has
    drawn, from the engine seeded with the entry, four numbers for every
    round of the loop, and it leaves a value kept back in the distribution:
    the one that [reset()] discards at the next call. *)
Theorem reseed_draws_and_keeps fuel tl entry v tl' :
  Reseed.GetNormallyDistributedNumberForEntry log fuel tl entry
    = Some (v, tl') →
  ∃ rounds dist,
    (1 ≤ rounds ≤ fuel)%nat
    ∧ generator tl' = Some (advance (4 * rounds) (MT19937.make entry))
    ∧ gaus tl' = Some dist
    ∧ Normal._M_saved_available dist = true.
Proof.
  unfold Reseed.GetNormallyDistributedNumberForEntry.
  rewrite seed_low_bits, seed_as_make.
  destruct (Normal.call log fuel _ _) as [[[v0 dist0] g0]|] eqn:Hcall; [|done].
  intros [= <- <-].
  destruct (call_draws _ _ _ _ _ _ Hcall)
    as [(Hkept & _)|(_ & Hkeeps & rounds & Hrounds & ->)]; [done|].
  by exists rounds, dist0.
Qed.

(** X3. Calls of [GetGlobalNormallyDistributedNumber] come in pairs: a call
    on a distribution without a kept-back value is followed by a call that
    returns for any bound on the rounds, does not touch the engine and
    leaves no value kept back. *)
Theorem global_calls_pair fuel gl v1 gl1 :
  Normal._M_saved_available (globalGaus gl) = false →
  GetGlobalNormallyDistributedNumber log fuel gl = Some (v1, gl1) →
  ∀ fuel', ∃ v2 gl2,
    GetGlobalNormallyDistributedNumber log fuel' gl1 = Some (v2, gl2)
    ∧ globalGenerator gl2 = globalGenerator gl1
    ∧ Normal._M_saved_available (globalGaus gl2) = false.
Proof.
  intros Hnone. unfold GetGlobalNormallyDistributedNumber.
  destruct (Normal.call log fuel _ _) as [[[v0 dist0] g0]|] eqn:Hcall; [|done].
  intros [= <- <-] fuel'. cbn [globalGaus globalGenerator].
  destruct (call_draws _ _ _ _ _ _ Hcall)
    as [(Hkept & _)|(_ & Hkeeps & _)]; [congruence|].
  unfold Normal.call. rewrite Hkeeps. cbn [mbind option_bind].
  by eexists _, _.
Qed.

(** X4. A call of [GetGlobalNormallyDistributedNumber] moves the global
    engine by a multiple of four numbers: by none when a value was kept
    back, by four for every round of the loop otherwise. *)
Theorem global_call_draws fuel gl v gl' :
  GetGlobalNormallyDistributedNumber log fuel gl = Some (v, gl') →
  ∃ rounds,
    (rounds ≤ fuel)%nat
    ∧ globalGenerator gl' = advance (4 * rounds) (globalGenerator gl)
    ∧ (rounds = 0%nat ↔ Normal._M_saved_available (globalGaus gl) = true).
Proof.
  unfold GetGlobalNormallyDistributedNumber.
  destruct (Normal.call log fuel _ _) as [[[v0 dist0] g0]|] eqn:Hcall; [|done].
  intros [= <- <-]. cbn [globalGenerator].
  destruct (call_draws _ _ _ _ _ _ Hcall)
    as [(Hkept & -> & _)|(Hnone & _ & rounds & Hrounds & ->)].
  - exists 0%nat. split; [lia|]. split; [done|]. by rewrite Hkept.
  - exists rounds. split; [lia|]. split; [done|]. rewrite Hnone.
    split; [lia|done].
Qed.
End Draws.

(** ** Runs of calls by one thread *)

Section Successive.
Context {St St' : Type}.
Implicit Types (f : St → option (double * St)).

(** What every call keeps, a run keeps; a run returns one value for each
    call. *)
Lemma successive_invariant f (P : St → Prop) :
  (∀ st v st', P st → f st = Some (v, st') → P st') →
  ∀ count st values st',
    P st → successive f count st = Some (values, st') →
    P st' ∧ length values = count.
Proof.
  intros Hkeep. induction count as [|count IH]; intros st values st' Hst.
  - cbn [successive]. intros [= <- <-]. done.
  - cbn [successive]. destruct (f st) as [[v st1]|] eqn:Hcall; [|done].
    cbn [mbind option_bind].
    destruct (successive f count st1) as [[vs st2]|] eqn:Hrest; [|done].
    intros [= <- <-].
    destruct (IH st1 vs st2 (Hkeep _ _ _ Hst Hcall) Hrest) as [? ?].
    cbn [length]. auto.
Qed.

(** Two functions that agree on the states a run goes through give the
    same run. *)
Lemma successive_agree f1 f2 (P : St → Prop) :
  (∀ st, P st → f1 st = f2 st) →
  (∀ st v st', P st → f2 st = Some (v, st') → P st') →
  ∀ count st, P st → successive f1 count st = successive f2 count st.
Proof.
  intros Hagree Hkeep. induction count as [|count IH]; intros st Hst.
  - reflexivity.
  - cbn [successive]. rewrite (Hagree st Hst).
    destruct (f2 st) as [[v st1]|] eqn:Hcall; [|done].
    cbn [mbind option_bind]. by rewrite (IH st1 (Hkeep _ _ _ Hst Hcall)).
Qed.

(** Two functions on different states that step alike from related states
    return the same values. *)
Lemma successive_mirror f (f' : St' → option (double * St'))
    (R : St → St' → Prop) :
  (∀ st st', R st st' →
     match f st, f' st' with
     | Some (v, st1), Some (v', st1') => v = v' ∧ R st1 st1'
     | None, None => True
     | _, _ => False
     end) →
  ∀ count st st', R st st' →
    fst <$> successive f count st = fst <$> successive f' count st'.
Proof.
  intros Hstep. induction count as [|count IH]; intros st st' Hrel.
  - reflexivity.
  - cbn [successive]. pose proof (Hstep st st' Hrel) as Hnow.
    destruct (f st) as [[v st1]|], (f' st') as [[v' st1']|]; try done.
    destruct Hnow as [<- Hrel1]. cbn [mbind option_bind].
    specialize (IH _ _ Hrel1).
    destruct (successive f count st1) as [[vs1 st2]|],
             (successive f' count st1') as [[vs2 st2']|];
      cbn in IH |- *; congruence.
Qed.
End Successive.

Section Runs.
Variable log : double → double.

Lemma free_running_step rd fuel tl v tl' :
  engine_ok tl → params_ok tl →
  GetNormallyDistributedNumber log rd fuel tl = Some (v, tl') →
  engine_ok tl' ∧ params_ok tl'
  ∧ is_Some (generator tl') ∧ is_Some (gaus tl').
Proof.
  intros Hengine Hparams. unfold GetNormallyDistributedNumber.
  destruct (Normal.call log fuel _ _) as [[[v0 dist0] g0]|] eqn:Hcall; [|done].
  intros [= <- <-]. split; [|split; [|by split]].
  - intros g [= <-]. eapply call_valid; [|exact Hcall].
    destruct (generator tl) as [g|] eqn:Hg; [by apply Hengine|].
    apply seed_valid.
  - intros dist [= <-].
    destruct (call_params _ _ _ _ _ _ _ Hcall) as [-> ->].
    destruct (gaus tl) as [dist|] eqn:Hd; [by apply Hparams|done].
Qed.

(** X5. However many calls of [GetNormallyDistributedNumber] a thread
    makes, starting with no thread-local object built and whatever its
    [random_device] delivers, it holds afterwards a well-formed engine and a
    distribution with the parameters 0 and 1, and it has returned one value
    for each call. *)
Theorem free_running_run_keeps_state rd fuel count values tl :
  successive (GetNormallyDistributedNumber log rd fuel) count thread_start
    = Some (values, tl) →
  engine_ok tl ∧ params_ok tl ∧ length values = count.
Proof.
  intros Hrun.
  assert (∀ tl0 v tl1,
            engine_ok tl0 ∧ params_ok tl0 →
            GetNormallyDistributedNumber log rd fuel tl0 = Some (v, tl1) →
            engine_ok tl1 ∧ params_ok tl1) as Hkeep.
  { intros tl0 v tl1 [He Hp] Hcall.
    by destruct (free_running_step _ _ _ _ _ He Hp Hcall) as (? & ? & _). }
  assert (engine_ok thread_start ∧ params_ok thread_start) as Hstart.
  { split; [intros g [=]|apply thread_start_ok]. }
  destruct (successive_invariant _ _ Hkeep _ _ _ _ Hstart Hrun)
    as [[He Hp] Hlen].
  done.
Qed.

Lemma global_step fuel gl v gl' :
  globals_ok gl →
  GetGlobalNormallyDistributedNumber log fuel gl = Some (v, gl') →
  globals_ok gl'.
Proof.
  intros (Hvalid & Hmean & Hstddev). unfold GetGlobalNormallyDistributedNumber.
  destruct (Normal.call log fuel _ _) as [[[v0 dist0] g0]|] eqn:Hcall; [|done].
  intros [= <- <-]. split; [exact (call_valid _ _ _ _ _ _ _ Hvalid Hcall)|].
  cbn [globalGaus].
  destruct (call_params _ _ _ _ _ _ _ Hcall) as [-> ->]. done.
Qed.

(** X6. From the start of the program and through any number of calls of
    [GetGlobalNormallyDistributedNumber], whatever the [random_device]
    delivered, the global engine is well-formed and the global distribution
    has the parameters 0 and 1. *)
Theorem global_run_keeps_state globalRandomDevice fuel count values gl :
  successive (GetGlobalNormallyDistributedNumber log fuel) count
    (globals_init globalRandomDevice) = Some (values, gl) →
  globals_ok gl ∧ length values = count.
Proof.
  apply (successive_invariant (GetGlobalNormallyDistributedNumber log fuel)
           globals_ok).
  - intros gl0 v gl1. apply global_step.
  - split; [apply seed_valid|done].
Qed.

Lemma mirrored_step rd fuel gl tl :
  mirrors rd gl tl →
  match GetGlobalNormallyDistributedNumber log fuel gl,
        GetNormallyDistributedNumber log rd fuel tl with
  | Some (v, gl'), Some (v', tl') => v = v' ∧ mirrors rd gl' tl'
  | None, None => True
  | _, _ => False
  end.
Proof.
  intros [Hg Hd].
  unfold GetGlobalNormallyDistributedNumber, GetNormallyDistributedNumber.
  rewrite Hg, Hd.
  by destruct (Normal.call log fuel _ _) as [[[v dist'] g']|].
Qed.

Lemma mirrored_runs rd fuel count gl tl :
  mirrors rd gl tl →
  fst <$> successive (GetGlobalNormallyDistributedNumber log fuel) count gl
  = fst <$> successive (GetNormallyDistributedNumber log rd fuel) count tl.
Proof.
  apply (successive_mirror _ _ (mirrors rd)). intros gl0 tl0.
  apply mirrored_step.
Qed.

(** X7. On a single thread the thread-local generator is a drop-in
    replacement of the global one: when the thread's [random_device]
    delivers what the global one delivered, any number of calls of
    [GetNormallyDistributedNumber] returns the values that as many calls of
    [GetGlobalNormallyDistributedNumber] return. *)
Theorem thread_local_reproduces_global rd fuel count :
  fst <$> successive (GetNormallyDistributedNumber log rd fuel) count
            thread_start
  = fst <$> successive (GetGlobalNormallyDistributedNumber log fuel) count
              (globals_init rd).
Proof. symmetry. by apply mirrored_runs. Qed.

(** X8. The same for the first version of the tutorial: with any slot
    numbers, the calls of [GetThreadSafeRNG] by one thread return the
    values that as many calls of [GetGlobalRNG] return, when both
    [random_device]s deliver the same. *)
Theorem thread_safe_reproduces_global rd fuel slot count :
  fst <$> successive (Slots.GetThreadSafeRNG log rd fuel slot) count
            thread_start
  = fst <$> successive (Slots.GetGlobalRNG log fuel) count (globals_init rd).
Proof.
  symmetry.
  exact (mirrored_runs rd fuel count (globals_init rd) thread_start
           (conj eq_refl eq_refl)).
Qed.

Lemma built_engine_step rd1 rd2 fuel tl :
  is_Some (generator tl) →
  GetNormallyDistributedNumber log rd1 fuel tl
  = GetNormallyDistributedNumber log rd2 fuel tl.
Proof.
  intros [g Hg]. unfold GetNormallyDistributedNumber. rewrite Hg.
  cbn [from_option]. reflexivity.
Qed.

(** X9. The [random_device] of a thread is asked once: for a thread whose
    engine is built, the values of any number of calls of
    [GetNormallyDistributedNumber], and the objects they leave, do not
    depend on what the [random_device] would deliver. *)
Theorem random_device_read_once rd1 rd2 fuel count tl :
  is_Some (generator tl) →
  successive (GetNormallyDistributedNumber log rd1 fuel) count tl
  = successive (GetNormallyDistributedNumber log rd2 fuel) count tl.
Proof.
  apply (successive_agree _ _ (λ tl, is_Some (generator tl))).
  - intros tl0. apply built_engine_step.
  - intros tl0 v tl1 _. unfold GetNormallyDistributedNumber.
    destruct (Normal.call log fuel _ _) as [[[v0 dist0] g0]|]; [|done].
    by intros [= <- <-].
Qed.

(** X10. The first value a thread gets from
    [GetNormallyDistributedNumber] is the value that
    [GetNormallyDistributedNumberForEntry] gives the entry which agrees
    modulo 2^32 with what the thread's [random_device] delivered. *)
Theorem first_value_is_entry_sample rd fuel entry :
  rd mod 2 ^ 32 = entry mod 2 ^ 32 →
  fst <$> GetNormallyDistributedNumber log rd fuel thread_start
  = Fresh.GetNormallyDistributedNumberForEntry log fuel entry.
Proof.
  intros Hcong.
  unfold GetNormallyDistributedNumber,
    Fresh.GetNormallyDistributedNumberForEntry.
  cbn [generator gaus thread_start default].
  assert (MT19937.make rd = MT19937.make (MT19937.to_result_type entry))
    as ->.
  { unfold MT19937.make. rewrite seed_low_bits. unfold MT19937.seed.
    change MT19937.word_max with (2 ^ 32). by rewrite Hcong. }
  by destruct (Normal.call log fuel _ _) as [[[v dist'] g']|].
Qed.
End Runs.

(** ** Seeds and engine states *)

(** X11. Two entries seed the same engine state exactly when they agree
    modulo 2^32: below 2^32, different entries never share a state. *)
Theorem seeded_states_distinct entry1 entry2 :
  MT19937.make (MT19937.to_result_type entry1)
  = MT19937.make (MT19937.to_result_type entry2)
  ↔ entry1 mod 2 ^ 32 = entry2 mod 2 ^ 32.
Proof.
  split; [|apply seed_congruent].
  unfold MT19937.make. rewrite !seed_low_bits. intros Hsame.
  destruct (seed_first_words (MT19937.Engine [] 0%nat) entry1) as [H1 _].
  destruct (seed_first_words (MT19937.Engine [] 0%nat) entry2) as [H2 _].
  rewrite Hsame, H2 in H1. exact (eq_sym H1).
Qed.

(** ** The further properties on entries and seeds 0 and 3 *)

Lemma reseed_leaves_well_formed_state_witness :
  Reseed.GetNormallyDistributedNumberForEntry log_table 3 thread_start 0
    = Some (after_entry0.1, after_entry0.2)
  ∧ ∃ g dist,
      generator after_entry0.2 = Some g ∧ valid g
      ∧ gaus after_entry0.2 = Some dist
      ∧ Normal._M_mean dist
        = Normal._M_mean
            (default (Normal.make 0%float 1%float) (gaus thread_start))
      ∧ Normal._M_stddev dist
        = Normal._M_stddev
            (default (Normal.make 0%float 1%float) (gaus thread_start)).
Proof.
  assert (Reseed.GetNormallyDistributedNumberForEntry log_table 3
            thread_start 0 = Some (after_entry0.1, after_entry0.2)) as H
    by (vm_compute; reflexivity).
  split; [exact H|].
  exact (reseed_leaves_well_formed_state log_table 3 thread_start 0 _ _ H).
Defined.

Lemma reseed_draws_and_keeps_witness :
  Reseed.GetNormallyDistributedNumberForEntry log_table 3 thread_start 0
    = Some (after_entry0.1, after_entry0.2)
  ∧ ∃ rounds dist,
      (1 ≤ rounds ≤ 3)%nat
      ∧ generator after_entry0.2
        = Some (advance (4 * rounds) (MT19937.make 0))
      ∧ gaus after_entry0.2 = Some dist
      ∧ Normal._M_saved_available dist = true.
Proof.
  assert (Reseed.GetNormallyDistributedNumberForEntry log_table 3
            thread_start 0 = Some (after_entry0.1, after_entry0.2)) as H
    by (vm_compute; reflexivity).
  split; [exact H|].
  exact (reseed_draws_and_keeps log_table 3 thread_start 0 _ _ H).
Defined.

Lemma global_calls_pair_witness :
  Normal._M_saved_available (globalGaus (globals_init 0)) = false
  ∧ GetGlobalNormallyDistributedNumber log_table 3 (globals_init 0)
    = Some (after_global0.1, after_global0.2)
  ∧ ∀ fuel', ∃ v2 gl2,
      GetGlobalNormallyDistributedNumber log_table fuel' after_global0.2
        = Some (v2, gl2)
      ∧ globalGenerator gl2 = globalGenerator after_global0.2
      ∧ Normal._M_saved_available (globalGaus gl2) = false.
Proof.
  assert (Normal._M_saved_available (globalGaus (globals_init 0)) = false)
    as H0 by reflexivity.
  assert (GetGlobalNormallyDistributedNumber log_table 3 (globals_init 0)
          = Some (after_global0.1, after_global0.2)) as H
    by (vm_compute; reflexivity).
  split; [exact H0|]. split; [exact H|].
  exact (global_calls_pair log_table 3 (globals_init 0) _ _ H0 H).
Defined.

Lemma global_call_draws_witness :
  GetGlobalNormallyDistributedNumber log_table 3 (globals_init 0)
    = Some (after_global0.1, after_global0.2)
  ∧ ∃ rounds,
      (rounds ≤ 3)%nat
      ∧ globalGenerator after_global0.2
        = advance (4 * rounds) (globalGenerator (globals_init 0))
      ∧ (rounds = 0%nat
         ↔ Normal._M_saved_available (globalGaus (globals_init 0)) = true).
Proof.
  assert (GetGlobalNormallyDistributedNumber log_table 3 (globals_init 0)
          = Some (after_global0.1, after_global0.2)) as H
    by (vm_compute; reflexivity).
  split; [exact H|].
  exact (global_call_draws log_table 3 (globals_init 0) _ _ H).
Defined.

Lemma free_running_run_keeps_state_witness :
  successive (GetNormallyDistributedNumber log_table 0 3) 2 thread_start
    = Some (thread_run2.1, thread_run2.2)
  ∧ engine_ok thread_run2.2 ∧ params_ok thread_run2.2
  ∧ length thread_run2.1 = 2%nat.
Proof.
  assert (successive (GetNormallyDistributedNumber log_table 0 3) 2
            thread_start = Some (thread_run2.1, thread_run2.2)) as H
    by (vm_compute; reflexivity).
  split; [exact H|].
  exact (free_running_run_keeps_state log_table 0 3 2 _ _ H).
Defined.

Lemma global_run_keeps_state_witness :
  successive (GetGlobalNormallyDistributedNumber log_table 3) 2
    (globals_init 0) = Some (global_run2.1, global_run2.2)
  ∧ globals_ok global_run2.2 ∧ length global_run2.1 = 2%nat.
Proof.
  assert (successive (GetGlobalNormallyDistributedNumber log_table 3) 2
            (globals_init 0) = Some (global_run2.1, global_run2.2)) as H
    by (vm_compute; reflexivity).
  split; [exact H|].
  exact (global_run_keeps_state log_table 0 3 2 _ _ H).
Defined.

Lemma random_device_read_once_witness :
  is_Some (generator thread_used)
  ∧ successive (GetNormallyDistributedNumber log_table 0 3) 2 thread_used
    = successive (GetNormallyDistributedNumber log_table 1 3) 2 thread_used.
Proof.
  assert (is_Some (generator thread_used)) as H by (eexists; reflexivity).
  split; [exact H|].
  exact (random_device_read_once log_table 0 1 3 2 thread_used H).
Defined.

Lemma first_value_is_entry_sample_witness :
  3 mod 2 ^ 32 = (3 + 2 ^ 32) mod 2 ^ 32
  ∧ fst <$> GetNormallyDistributedNumber log_table 3 3 thread_start
    = Fresh.GetNormallyDistributedNumberForEntry log_table 3 (3 + 2 ^ 32).
Proof.
  assert (3 mod 2 ^ 32 = (3 + 2 ^ 32) mod 2 ^ 32) as H by reflexivity.
  split; [exact H|].
  exact (first_value_is_entry_sample log_table 3 3 (3 + 2 ^ 32) H).
Defined.
